(** * sqlstrings.postgre: statement builders for a Postgres-flavoured dialect

    A shallow embedding of [src/sqlstrings/postgre.py].  Python [str] is
    [string] (on ASCII text, where characters and bytes coincide), a [dict]
    is an association list in insertion order, an
    optional argument defaulting to [None] is an [option], and the two
    effects the module has, raising an exception and calling the [logging]
    module, are threaded through a small monad. *)

From Stdlib Require Import String Ascii List ZArith Bool Lia DecimalString
  Permutation.
Import ListNotations.
Open Scope string_scope.

(** ** Text helpers *)

Definition LF : string := String "010"%char EmptyString.
Definition TAB : string := String "009"%char EmptyString.

(** [sep.join(xs)] on a sequence whose items are all [str]. *)
Fixpoint join (sep : string) (xs : list string) : string :=
  match xs with
  | [] => ""
  | [x] => x
  | x :: rest => x ++ sep ++ join sep rest
  end.

(** [tuple(s)] for a [str]: its characters, each a one-character [str]. *)
Fixpoint tuple_of_str (s : string) : list string :=
  match s with
  | EmptyString => []
  | String c rest => String c EmptyString :: tuple_of_str rest
  end.

(** [s.startswith(p)]. *)
Fixpoint startswith (p s : string) : bool :=
  match p, s with
  | EmptyString, _ => true
  | String a p', String b s' => Ascii.eqb a b && startswith p' s'
  | String _ _, EmptyString => false
  end.

(** [sub in s]: [sub] occurs in [s] as a contiguous substring. *)
Fixpoint contains (sub s : string) : bool :=
  startswith sub s ||
  match s with
  | EmptyString => false
  | String _ s' => contains sub s'
  end.

(** [s.endswith(p)]. *)
Fixpoint endswith (p s : string) : bool :=
  String.eqb p s ||
  match s with
  | EmptyString => false
  | String _ s' => endswith p s'
  end.

(** [s[-1]], when [s] is not empty. *)
Fixpoint last_char (s : string) : option ascii :=
  match s with
  | EmptyString => None
  | String c EmptyString => Some c
  | String _ s' => last_char s'
  end.

(** [f'{n}'] for an [int]: decimal digits, with a leading minus sign. *)
Definition str_of_int (n : Z) : string :=
  NilZero.string_of_int (Z.to_int n).

(** A string that ends with a semicolon. *)
Definition semicolon_terminated (s : string) : Prop := last_char s = Some ";"%char.

(** ** Values, mappings and arguments *)

(** The values a column can be mapped to: the literal kinds the formatter's
    contract names (absent, numeric, text). *)
Inductive value : Type :=
| VNone
| VInt (n : Z)
| VStr (s : string).

(** A Python [dict] with [str] keys, in insertion order. *)
Definition dict (V : Type) : Type := list (string * V).

Definition keys {V} (d : dict V) : list string := map fst d.
Definition values {V} (d : dict V) : list V := map snd d.
Definition items {V} (d : dict V) : list (string * V) := d.

(** The second argument of [insert]: a [dict], a [list] of [dict]s, or an
    object that is neither (both [isinstance] tests fail). *)
Inductive names_values : Type :=
| NVDict (d : dict value)
| NVList (l : list (dict value))
| NVOther.

(** An argument that is either one [str] or a sequence of [str]
    ([table_names] of [drop_table]; [cols], [group_by] and [order_by] of
    [select]). *)
Inductive str_or_seq : Type :=
| Str (s : string)
| Seq (l : list string).

(** What [str.join] can meet in the sequence it is given: a [str], or a
    [set] of [str] (the set display [{e}] builds one). *)
Inductive item : Type :=
| IStr (s : string)
| ISet (elems : list string).

(** ** Exceptions *)

Inductive exn : Type :=
| TypeError
| IndexError
| UnboundLocalError.

Inductive result (A : Type) : Type :=
| Ok (a : A)
| Raise (e : exn).
Arguments Ok {A} a.
Arguments Raise {A} e.

Definition rbind {A B} (r : result A) (k : A -> result B) : result B :=
  match r with
  | Ok a => k a
  | Raise e => Raise e
  end.

(** [list(map(f, xs))]: the first call that raises ends the traversal. *)
Fixpoint rmap {A B} (f : A -> result B) (xs : list A) : result (list B) :=
  match xs with
  | [] => Ok []
  | x :: rest => rbind (f x) (fun y => rbind (rmap f rest) (fun ys => Ok (y :: ys)))
  end.

(** The [str] items of a sequence, when every item is a [str]. *)
Fixpoint all_str (xs : list item) : option (list string) :=
  match xs with
  | [] => Some []
  | IStr s :: rest => option_map (cons s) (all_str rest)
  | ISet _ :: _ => None
  end.

(** [sep.join(xs)]: [TypeError] as soon as an item is not a [str]. *)
Definition join_items (sep : string) (xs : list item) : result string :=
  match all_str xs with
  | Some l => Ok (join sep l)
  | None => Raise TypeError
  end.

(** [xs[0]]. *)
Definition first_item {A} (xs : list A) : result A :=
  match xs with
  | [] => Raise IndexError
  | x :: _ => Ok x
  end.

(** ** The world outside a call

    Everything a call could touch besides its arguments: the interpreter's
    state [globals], the module global [__name__], and the [logging]
    module.

    The [logging] module is not part of this repository.  What one of its
    debug calls does depends on the loggers' levels and handlers at the
    time of the call (the module's own logger is set to INFO when the module
    is imported, lines 5-6; [logging.debug] installs a handler on the root
    logger when it has none): that configuration is part of [globals], and
    the call is an arbitrary function [logging] on it.  The builders only
    rely on a debug call returning. *)

Inductive logger_id : Type :=
| RootLogger      (* [logging.debug]: the root logger *)
| ModuleLogger.   (* [logger.debug]: [logging.getLogger(__name__)] *)

Record world (G : Type) : Type := mkWorld {
  globals : G;
  module_name : string;
  logging : logger_id -> string -> G -> G
}.
Arguments mkWorld {G} _ _ _.
Arguments globals {G} _.
Arguments module_name {G} _.
Arguments logging {G} _ _ _ _.

(** A computation that runs in a world, may raise, and leaves a world. *)
Definition M (G A : Type) : Type := world G -> result A * world G.

Definition ret {G A} (a : A) : M G A := fun w => (Ok a, w).

Definition bind {G A B} (m : M G A) (k : A -> M G B) : M G B :=
  fun w =>
    match m w with
    | (Ok a, w') => k a w'
    | (Raise e, w') => (Raise e, w')
    end.

Definition lift {G A} (r : result A) : M G A := fun w => (r, w).

(** [__name__], read where a log message is formatted. *)
Definition dunder_name {G} : M G string := fun w => (Ok (module_name w), w).

(** [lg.debug(msg)]: whatever the [logging] module does with the message
    in the current state. *)
Definition debug {G} (lg : logger_id) (msg : string) : M G unit :=
  fun w =>
    (Ok tt, mkWorld (logging w lg msg (globals w)) (module_name w) (logging w)).

Declare Scope py_scope.
Delimit Scope py_scope with py.
Notation "x <- m ;; k" := (bind m (fun x => k))
  (at level 61, m at next level, right associativity) : py_scope.
Notation "m ;;; k" := (bind m (fun _ => k))
  (at level 61, right associativity) : py_scope.
Notation "x <~ r ;; k" := (rbind r (fun x => k))
  (at level 61, r at next level, right associativity) : py_scope.

(** The string a call returns, or the exception it raises. *)
Definition outcome {G A} (m : M G A) (w : world G) : result A := fst (m w).
(** The world a call leaves behind. *)
Definition after {G A} (m : M G A) (w : world G) : world G := snd (m w).

(** ** The builders *)

Section Builders.

Variable G : Type.

(** [write_val] lives in [sqlstrings.value_handling], outside this module.
    The builders only need it as a function from a value to its SQL
    literal text, so it is a parameter of the development. *)
Variable write_val : value -> string.

Local Open Scope py_scope.

(** The local function of [insert]; each formatted value is put in a set
    display before the sequence reaches [join]. *)
Definition args_serialise (value_dict : dict value) : result string :=
  join_items ", " (map (fun v => ISet [write_val v]) (values value_dict)).

Definition insert (table_name : string) (nv : names_values) : M G string :=
  let outstr := "INSERT INTO " ++ table_name ++ LF in
  bound <- lift
    match nv with
    | NVList l =>
        d0 <~ first_item l ;;
        let names := keys d0 in
        groups <~ rmap (fun d => s <~ args_serialise d ;; Ok ("(" ++ s ++ ")")) l ;;
        Ok (names, join (", " ++ LF ++ TAB) groups)
    | NVDict d =>
        let names := keys d in
        s <~ args_serialise d ;;
        Ok (names, "(" ++ s ++ ")")
    | NVOther =>
        (* neither branch binds [names]; its first use raises *)
        Raise UnboundLocalError
    end ;;
  let '(names, values_str) := bound in
  let names_str := join ", " names in
  let outstr := outstr ++ TAB ++ table_name ++ "(" ++ names_str ++ ")" ++ LF
                       ++ "VALUES" ++ LF ++ TAB ++ values_str ++ ";" in
  name <- dunder_name ;;
  debug RootLogger ("Created " ++ name ++ " insertion:" ++ LF ++ outstr) ;;;
  ret outstr.

Definition update (table_name : string) (nv : dict value)
    (where_ : option string) : M G string :=
  let outstr := "UPDATE " ++ table_name ++ LF ++ "SET " in
  let outstr := outstr ++
    join ("," ++ LF ++ "    ")
         (map (fun kvp => fst kvp ++ " = " ++ write_val (snd kvp)) (items nv)) in
  let outstr :=
    match where_ with
    | Some cond => outstr ++ LF ++ "WHERE " ++ cond ++ ";"
    | None => outstr
    end in
  name <- dunder_name ;;
  debug ModuleLogger ("Created " ++ name ++ " update:" ++ LF ++ outstr) ;;;
  ret outstr.

Definition create_table (table_name : string) (names_types : dict string)
    : M G string :=
  let outstr := "CREATE TABLE " ++ table_name ++ " (" in
  let outstr := outstr ++
    join ("," ++ LF ++ TAB)
         (map (fun kvp => fst kvp ++ " " ++ snd kvp) (items names_types))
    ++ LF ++ ");" in
  name <- dunder_name ;;
  debug ModuleLogger ("Created " ++ name ++ " table creator:" ++ LF ++ outstr) ;;;
  ret outstr.

Definition procedure_call (proc_name : string) (param_args : dict value)
    : M G string :=
  let outstr := "CALL " ++ proc_name ++ "("
    ++ join ", " (map (fun kvp => write_val (snd kvp)) (items param_args))
    ++ ");" in
  name <- dunder_name ;;
  debug RootLogger ("Created " ++ name ++ " proceduce call:" ++ LF ++ outstr) ;;;
  ret outstr.

(** [drop_table] and [select] contain no statement with an effect: no
    logging call, and no operation that can raise on arguments of the
    declared types.  They are plain functions. *)

Definition drop_table (table_names : str_or_seq)
    (if_exists cascade restrict : bool) : string :=
  let outstr := "DROP TABLE " in
  let outstr := outstr ++ (if if_exists then " IF EXISTS  " else "") in
  let outstr := outstr ++
    match table_names with
    | Str s => s
    | Seq l => join ", " l
    end in
  let outstr := outstr ++ (if cascade && negb restrict then " CASCADE" else "") in
  let outstr := outstr ++ (if restrict && negb cascade then " RESTRICT" else "") in
  outstr ++ ";".

(** [tuple(x) if isinstance(x, str) else x]. *)
Definition as_tuple (x : str_or_seq) : list string :=
  match x with
  | Str s => tuple_of_str s
  | Seq l => l
  end.

Definition select (cols : str_or_seq) (frm : string) (distinct : bool)
    (where_ : option string) (group_by : option str_or_seq)
    (having : option string) (order_by : option str_or_seq)
    (order_desc : bool) (limit offset fetch : option Z) : string :=
  (* Select *)
  let cols := as_tuple cols in
  let outstr := "SELECT " ++ (if distinct then "DISTINCT " else "")
                          ++ join ", " cols in
  (* From *)
  let outstr := outstr ++ LF ++ "FROM " ++ frm in
  (* Where *)
  let outstr := outstr ++
    match where_ with None => "" | Some c => LF ++ "WHERE " ++ c end in
  (* Group by *)
  let outstr :=
    match group_by with
    | Some g =>
        let g := as_tuple g in
        outstr ++ LF ++ "GROUP BY " ++ join ", " g
    | None => outstr
    end in
  (* Having *)
  let outstr := outstr ++
    match having with None => "" | Some c => LF ++ "HAVING " ++ c end in
  (* Order by *)
  let outstr :=
    match order_by with
    | Some o =>
        let o := as_tuple o in
        outstr ++ LF ++ "ORDER BY " ++ join ", " o
               ++ (if negb order_desc then "" else " DESC")
    | None =>
        if order_desc then outstr ++ LF ++ "ORDER BY DESC" else outstr
    end in
  (* Limit *)
  let outstr := outstr ++
    match limit with None => "" | Some n => LF ++ "LIMIT " ++ str_of_int n end in
  (* Offset *)
  let outstr := outstr ++
    match offset with
    | None => ""
    | Some n => LF ++ "OFFSET " ++ str_of_int n ++ " ROWS"
    end in
  (* Fetch *)
  let outstr := outstr ++
    match fetch with
    | None => ""
    | Some n => LF ++ "FETCH FIRST " ++ str_of_int n ++ " ROWS ONLY"
    end in
  outstr ++ ";".

End Builders.

Arguments insert {G} write_val table_name nv _.
Arguments update {G} write_val table_name nv where_ _.
Arguments create_table {G} table_name names_types _.
Arguments procedure_call {G} write_val proc_name param_args _.


(** Modelled from the spec: the value formatter [write_val] of
    [sqlstrings.value_handling], whose source is absent.  The spec's
    contract: string kinds are quoted, absent values render as NULL,
    numeric kinds pass through unquoted. *)
Definition write_val_spec (v : value) : string :=
  match v with
  | VNone => "NULL"
  | VInt n => str_of_int n
  | VStr s => "'" ++ s ++ "'"
  end.

(** A world to run examples in: the module imported under its own name,
    and loggers configured so that debug messages are discarded. *)
Definition fresh_world : world unit :=
  mkWorld tt "sqlstrings.postgre" (fun _ _ g => g).

(** ** The clauses of a SELECT statement, one by one

    The reading of [select] as a concatenation of nine clause fragments in
    grammar order; [select_clauses] below shows that the sequential code
    computes exactly this. *)

Definition select_clause (cols : str_or_seq) (distinct : bool) : string :=
  "SELECT " ++ (if distinct then "DISTINCT " else "") ++ join ", " (as_tuple cols).

Definition from_clause (frm : string) : string := LF ++ "FROM " ++ frm.

Definition where_clause (where_ : option string) : string :=
  match where_ with None => "" | Some c => LF ++ "WHERE " ++ c end.

Definition group_by_clause (group_by : option str_or_seq) : string :=
  match group_by with
  | None => ""
  | Some g => LF ++ "GROUP BY " ++ join ", " (as_tuple g)
  end.

Definition having_clause (having : option string) : string :=
  match having with None => "" | Some c => LF ++ "HAVING " ++ c end.

Definition order_by_clause (order_by : option str_or_seq) (order_desc : bool)
    : string :=
  match order_by with
  | Some o => LF ++ "ORDER BY " ++ join ", " (as_tuple o)
                 ++ (if order_desc then " DESC" else "")
  | None => if order_desc then LF ++ "ORDER BY DESC" else ""
  end.

Definition limit_clause (limit : option Z) : string :=
  match limit with None => "" | Some n => LF ++ "LIMIT " ++ str_of_int n end.

Definition offset_clause (offset : option Z) : string :=
  match offset with
  | None => ""
  | Some n => LF ++ "OFFSET " ++ str_of_int n ++ " ROWS"
  end.

Definition fetch_clause (fetch : option Z) : string :=
  match fetch with
  | None => ""
  | Some n => LF ++ "FETCH FIRST " ++ str_of_int n ++ " ROWS ONLY"
  end.

(** The text [drop_table] writes for its [table_names] argument. *)
Definition names_text (table_names : str_or_seq) : string :=
  match table_names with
  | Str s => s
  | Seq l => join ", " l
  end.

(** ** Mappings with and without columns *)

Definition is_empty {V} (d : dict V) : bool :=
  match d with [] => true | _ :: _ => false end.

(** Some mapping of the argument has at least one column: a non-empty
    [dict], or a [list] with a non-empty [dict] in it. *)
Definition has_column (nv : names_values) : bool :=
  match nv with
  | NVDict d => negb (is_empty d)
  | NVList l => existsb (fun d => negb (is_empty d)) l
  | NVOther => false
  end.

(** ** Equality of mappings *)





(** ** Lines of a statement *)

(** [s.count("\n")]: the number of line breaks in [s]. *)
Fixpoint count_lf (s : string) : nat :=
  match s with
  | EmptyString => 0
  | String c rest => (if Ascii.eqb c "010" then 1 else 0) + count_lf rest
  end.

(** A text without a line break. *)
Definition one_line (s : string) : bool := Nat.eqb (count_lf s) 0.

(** Every name of the argument, as [select] reads it, is without a line
    break. *)
Definition one_line_each (x : str_or_seq) : bool := forallb one_line (as_tuple x).

(** A test on an optional argument: it holds when the argument is left
    out. *)
Definition when_given {A} (p : A -> bool) (o : option A) : bool :=
  match o with
  | None => true
  | Some a => p a
  end.

(** 1 for an argument that is given, 0 for one left at [None]. *)
Definition given {A} (o : option A) : nat :=
  match o with
  | None => 0
  | Some _ => 1
  end.

(** * Properties *)

(** ** Text *)

Lemma append_nil_r (s : string) : s ++ "" = s.
Proof. induction s as [|c s IH]; simpl; [reflexivity | now rewrite IH]. Qed.

Lemma append_assoc (a b c : string) : (a ++ b) ++ c = a ++ b ++ c.
Proof. induction a as [|x a IH]; simpl; [reflexivity | now rewrite IH]. Qed.

Lemma length_append (a b : string) :
  String.length (a ++ b) = String.length a + String.length b.
Proof. induction a as [|x a IH]; simpl; [reflexivity | now rewrite IH]. Qed.

Lemma last_char_append (a : string) (c : ascii) :
  last_char (a ++ String c "") = Some c.
Proof.
  induction a as [|x a IH]; [reflexivity|].
  change (String x a ++ String c "") with (String x (a ++ String c "")).
  simpl last_char. rewrite IH.
  destruct (a ++ String c "") eqn:E; [|reflexivity].
  destruct a; discriminate E.
Qed.

Lemma startswith_append (p s : string) : startswith p (p ++ s) = true.
Proof.
  induction p as [|c p IH]; simpl; [reflexivity|].
  now rewrite Ascii.eqb_refl, IH.
Qed.

Lemma contains_here (sub s : string) : contains sub (sub ++ s) = true.
Proof.
  destruct (sub ++ s) eqn:E; simpl; rewrite <- E, startswith_append; reflexivity.
Qed.

Lemma contains_append (sub a s : string) :
  contains sub s = true -> contains sub (a ++ s) = true.
Proof.
  intros H. induction a as [|c a IH]; simpl; [exact H|].
  rewrite IH. apply orb_true_r.
Qed.

Lemma contains_middle (a sub b : string) : contains sub (a ++ sub ++ b) = true.
Proof. apply contains_append, contains_here. Qed.

Lemma endswith_append (a p : string) : endswith p (a ++ p) = true.
Proof.
  induction a as [|c a IH]; simpl.
  - destruct p; simpl; [reflexivity|].
    now rewrite Ascii.eqb_refl, String.eqb_refl.
  - rewrite IH. apply orb_true_r.
Qed.

Lemma semicolon_terminated_append (a : string) : semicolon_terminated (a ++ ";").
Proof. apply last_char_append. Qed.

Lemma contains_refl (s : string) : contains s s = true.
Proof.
  rewrite <- (append_nil_r s) at 2. apply contains_here.
Qed.

Lemma startswith_append_r (p a b : string) :
  startswith p a = true -> startswith p (a ++ b) = true.
Proof.
  revert a. induction p as [|c p IH]; intros a H; [reflexivity|].
  destruct a as [|x a]; [discriminate H|].
  cbn [append startswith] in *. apply andb_true_iff in H as [Hc Hp].
  rewrite Hc, (IH a Hp). reflexivity.
Qed.

Lemma contains_append_r (sub a b : string) :
  contains sub a = true -> contains sub (a ++ b) = true.
Proof.
  induction a as [|x a IH]; intros H.
  - cbn [contains] in H. rewrite orb_false_r in H.
    destruct sub; [|discriminate H]. destruct b; reflexivity.
  - cbn [append]. cbn [contains] in *. apply orb_true_iff in H as [H|H].
    + apply (startswith_append_r _ _ b) in H. cbn [append] in H.
      rewrite H. reflexivity.
    + rewrite (IH H). apply orb_true_r.
Qed.

(** Every item of a joined sequence occurs in the result. *)
Lemma contains_join (sep x : string) (xs : list string) :
  In x xs -> contains x (join sep xs) = true.
Proof.
  induction xs as [|a [|b rest] IH]; intros Hin.
  - destruct Hin.
  - destruct Hin as [<-|[]]. apply contains_refl.
  - change (join sep (a :: b :: rest)) with (a ++ sep ++ join sep (b :: rest)).
    destruct Hin as [<-|Hin].
    + apply contains_here.
    + do 2 apply contains_append. apply IH, Hin.
Qed.

(** Brings a concatenation into the shape [_ ++ ";"]. *)
Ltac ends_in_semicolon :=
  repeat rewrite <- append_assoc; apply semicolon_terminated_append.

(** ** Outcomes *)

Lemma Ok_inj {A} (a b : A) : Ok a = Ok b -> a = b.
Proof. congruence. Qed.

(** ** insert *)

Section InsertFacts.

Variable G : Type.
Variable write_val : value -> string.

(** A set is never a [str]: serialising the values succeeds on the empty
    mapping only. *)
Lemma args_serialise_cases (d : dict value) :
  args_serialise write_val d = if is_empty d then Ok "" else Raise TypeError.
Proof. destruct d as [|[k v] d]; reflexivity. Qed.

Lemma value_groups_cases (l : list (dict value)) :
  rmap (fun d => rbind (args_serialise write_val d)
                       (fun s => Ok ("(" ++ s ++ ")"))) l
  = if existsb (fun d => negb (is_empty d)) l
    then Raise TypeError
    else Ok (map (fun _ => "()") l).
Proof.
  induction l as [|d l IH]; [reflexivity|].
  cbn [rmap existsb map]. rewrite args_serialise_cases.
  destruct d as [|kv d]; cbn [is_empty negb orb rbind]; [|reflexivity].
  rewrite IH. destruct (existsb _ l); reflexivity.
Qed.

(** The outcome of [insert], by the shape of its argument. *)
Lemma insert_outcome (table_name : string) (nv : names_values) (w : world G) :
  outcome (insert write_val table_name nv) w =
  match nv with
  | NVDict d =>
      if is_empty d
      then Ok (("INSERT INTO " ++ table_name ++ LF) ++ TAB ++ table_name
               ++ "(" ++ "" ++ ")" ++ LF ++ "VALUES" ++ LF ++ TAB ++ "()" ++ ";")
      else Raise TypeError
  | NVList [] => Raise IndexError
  | NVList (d0 :: l) =>
      if existsb (fun d => negb (is_empty d)) (d0 :: l)
      then Raise TypeError
      else Ok (("INSERT INTO " ++ table_name ++ LF) ++ TAB ++ table_name
               ++ "(" ++ "" ++ ")" ++ LF ++ "VALUES" ++ LF ++ TAB
               ++ join (", " ++ LF ++ TAB) (map (fun _ => "()") (d0 :: l)) ++ ";")
  | NVOther => Raise UnboundLocalError
  end.
Proof.
  unfold outcome, insert, bind, lift. destruct nv as [d|l|].
  - rewrite args_serialise_cases. destruct d as [|kv d]; reflexivity.
  - destruct l as [|d0 l]; [reflexivity|].
    cbn [first_item rbind]. rewrite value_groups_cases.
    destruct (existsb _ (d0 :: l)) eqn:E; [reflexivity|].
    cbn [rbind]. destruct d0 as [|kv d0]; [reflexivity|discriminate E].
  - reflexivity.
Qed.

(** When [insert] returns, what it returns ends with a semicolon. *)
Lemma insert_semicolon (table_name : string) (nv : names_values) (w : world G)
    (s : string) :
  outcome (insert write_val table_name nv) w = Ok s -> semicolon_terminated s.
Proof.
  rewrite insert_outcome. destruct nv as [d|[|d0 l]|]; try discriminate.
  - destruct (is_empty d); [|discriminate].
    intros H. apply Ok_inj in H. subst s. ends_in_semicolon.
  - destruct (existsb _ (d0 :: l)); [discriminate|].
    intros H. apply Ok_inj in H. subst s. ends_in_semicolon.
Qed.

End InsertFacts.

(** C1. [insert("t", {"a": 1, "b": "x"})] does not return the statement
    text: the call raises [TypeError], whatever the value formatter is. *)
Theorem insert_single_mapping_raises (G : Type) (write_val : value -> string)
    (w : world G) :
  outcome (insert write_val "t" (NVDict [("a", VInt 1); ("b", VStr "x")])) w
  = Raise TypeError.
Proof. rewrite insert_outcome. reflexivity. Qed.

(** C2. [insert] raises [TypeError] exactly when some mapping it is given
    has at least one column.  In particular a non-empty [dict], and a
    non-empty [list] of non-empty [dict]s, always raise it, and a call that
    does not raise it was given empty mappings only. *)
Theorem insert_TypeError_iff_has_column (G : Type) (write_val : value -> string)
    (table_name : string) (nv : names_values) (w : world G) :
  outcome (insert write_val table_name nv) w = Raise TypeError
  <-> has_column nv = true.
Proof.
  rewrite insert_outcome. destruct nv as [d|[|d0 l]|]; cbn [has_column].
  - destruct (is_empty d); cbn [negb]; split; congruence.
  - cbn [existsb]. split; discriminate.
  - destruct (existsb _ (d0 :: l)); split; congruence.
  - split; discriminate.
Qed.

(** The two shapes the claim names, spelled out. *)
Corollary insert_nonempty_dict_raises (G : Type) (write_val : value -> string)
    (table_name : string) (d : dict value) (w : world G) :
  d <> [] -> outcome (insert write_val table_name (NVDict d)) w = Raise TypeError.
Proof.
  intros Hd. rewrite insert_outcome. destruct d; [contradiction|reflexivity].
Qed.

Corollary insert_nonempty_rows_raise (G : Type) (write_val : value -> string)
    (table_name : string) (l : list (dict value)) (w : world G) :
  l <> [] -> Forall (fun d => d <> []) l ->
  outcome (insert write_val table_name (NVList l)) w = Raise TypeError.
Proof.
  intros Hl Hall. rewrite insert_outcome. destruct l as [|d0 l]; [contradiction|].
  inversion Hall as [|? ? Hd0 _]; subst. destruct d0; [contradiction|reflexivity].
Qed.

Corollary insert_returns_only_on_empty (G : Type) (write_val : value -> string)
    (table_name : string) (nv : names_values) (w : world G) (s : string) :
  outcome (insert write_val table_name nv) w = Ok s -> has_column nv = false.
Proof.
  rewrite insert_outcome. destruct nv as [d|[|d0 l]|]; cbn [has_column];
    try discriminate.
  - destruct (is_empty d); [reflexivity|discriminate].
  - destruct (existsb _ (d0 :: l)); [discriminate|reflexivity].
Qed.

(** ** update, create_table, procedure_call *)

Section StatementFacts.

Variable G : Type.
Variable write_val : value -> string.

Lemma update_outcome (table_name : string) (nv : dict value)
    (where_ : option string) (w : world G) :
  outcome (update write_val table_name nv where_) w =
  Ok (match where_ with
      | Some cond =>
          (("UPDATE " ++ table_name ++ LF ++ "SET ") ++
           join ("," ++ LF ++ "    ")
                (map (fun kvp => fst kvp ++ " = " ++ write_val (snd kvp)) nv))
          ++ LF ++ "WHERE " ++ cond ++ ";"
      | None =>
          ("UPDATE " ++ table_name ++ LF ++ "SET ") ++
          join ("," ++ LF ++ "    ")
               (map (fun kvp => fst kvp ++ " = " ++ write_val (snd kvp)) nv)
      end).
Proof. destruct where_; reflexivity. Qed.

(** With a [where] condition, [update] ends its statement with a
    semicolon. *)
Lemma update_where_semicolon (table_name : string) (nv : dict value)
    (cond : string) (w : world G) (s : string) :
  outcome (update write_val table_name nv (Some cond)) w = Ok s ->
  semicolon_terminated s.
Proof.
  rewrite update_outcome. intros H. apply Ok_inj in H. subst s.
  ends_in_semicolon.
Qed.

Lemma create_table_semicolon (table_name : string) (names_types : dict string)
    (w : world G) (s : string) :
  outcome (create_table table_name names_types) w = Ok s ->
  semicolon_terminated s.
Proof.
  unfold outcome, create_table, bind, dunder_name, debug, ret. cbn [fst].
  intros H. apply Ok_inj in H. subst s.
  change (LF ++ ");") with (LF ++ ")" ++ ";"). ends_in_semicolon.
Qed.

Lemma procedure_call_semicolon (proc_name : string) (param_args : dict value)
    (w : world G) (s : string) :
  outcome (procedure_call write_val proc_name param_args) w = Ok s ->
  semicolon_terminated s.
Proof.
  unfold outcome, procedure_call, bind, dunder_name, debug, ret. cbn [fst].
  intros H. apply Ok_inj in H. subst s.
  change ");" with (")" ++ ";"). ends_in_semicolon.
Qed.

End StatementFacts.

(** C7. [update("t", {"a": 1}, "id=5")] contains [SET a = 1] and ends with
    [WHERE id=5;], for every value formatter that writes the number 1 as
    the text [1]. *)
Theorem update_example (G : Type) (write_val : value -> string) (w : world G) :
  write_val (VInt 1) = "1" ->
  exists s : string,
    outcome (update write_val "t" [("a", VInt 1)] (Some "id=5")) w = Ok s /\
    contains "SET a = 1" s = true /\
    endswith "WHERE id=5;" s = true.
Proof.
  intros H1. rewrite update_outcome. cbn [map join fst snd]. rewrite H1.
  eexists. split; [reflexivity|]. split; reflexivity.
Qed.

Lemma update_example_witness :
  write_val_spec (VInt 1) = "1" /\
  exists s : string,
    outcome (update write_val_spec "t" [("a", VInt 1)] (Some "id=5")) fresh_world
      = Ok s /\
    contains "SET a = 1" s = true /\
    endswith "WHERE id=5;" s = true.
Proof.
  split; [reflexivity|].
  apply (update_example unit write_val_spec fresh_world). reflexivity.
Defined.

(** C5. [update] called without a [where] condition returns a string that
    does not end with a semicolon: for [update("t", {"a": 1})] it is
    [UPDATE t / SET a = 1], whose last character is [1]. *)
Theorem update_without_where_no_semicolon (G : Type)
    (write_val : value -> string) (w : world G) :
  write_val (VInt 1) = "1" ->
  outcome (update write_val "t" [("a", VInt 1)] None) w
    = Ok ("UPDATE t" ++ LF ++ "SET a = 1") /\
  ~ semicolon_terminated ("UPDATE t" ++ LF ++ "SET a = 1").
Proof.
  intros H1. rewrite update_outcome. cbn [map join fst snd]. rewrite H1.
  split; [reflexivity|]. unfold semicolon_terminated. cbn. discriminate.
Qed.

Lemma update_without_where_no_semicolon_witness :
  write_val_spec (VInt 1) = "1" /\
  outcome (update write_val_spec "t" [("a", VInt 1)] None) fresh_world
    = Ok ("UPDATE t" ++ LF ++ "SET a = 1") /\
  ~ semicolon_terminated ("UPDATE t" ++ LF ++ "SET a = 1").
Proof.
  split; [reflexivity|].
  apply (update_without_where_no_semicolon unit write_val_spec fresh_world).
  reflexivity.
Defined.

(** ** drop_table *)

Lemma drop_table_semicolon (table_names : str_or_seq)
    (if_exists cascade restrict : bool) :
  semicolon_terminated (drop_table table_names if_exists cascade restrict).
Proof. unfold drop_table. apply semicolon_terminated_append. Qed.

(** C4, as the claim states it: with both flags set the output of
    [drop_table("t", cascade=True, restrict=True)] would contain CASCADE.
    It does not. *)
Lemma drop_table_both_flags_no_cascade :
  ~ (contains "CASCADE" (drop_table (Str "t") false true true) = true /\
     contains "RESTRICT" (drop_table (Str "t") false true true) = false).
Proof. intros [H _]. vm_compute in H. discriminate H. Qed.

(** C4, amended. When both [cascade] and [restrict] are set, neither
    keyword is appended: the statement is the one built with both flags
    off, the names directly followed by the semicolon. *)
Theorem drop_table_both_flags_neither (table_names : str_or_seq)
    (if_exists : bool) :
  drop_table table_names if_exists true true
    = drop_table table_names if_exists false false /\
  drop_table table_names if_exists true true
    = "DROP TABLE " ++ (if if_exists then " IF EXISTS  " else "")
                    ++ names_text table_names ++ ";".
Proof.
  unfold drop_table, names_text. cbn [andb negb]. split; [reflexivity|].
  rewrite !append_nil_r, !append_assoc. reflexivity.
Qed.

(** C6, as the claim states it: one space between TABLE and IF.  The
    output has two. *)
Lemma drop_table_if_exists_not_one_space :
  drop_table (Seq ["t1"; "t2"]) true false false
    <> "DROP TABLE IF EXISTS  t1, t2;".
Proof. vm_compute. discriminate. Qed.

(** C6, amended. [drop_table(["t1", "t2"], if_exists=True)] returns
    [DROP TABLE  IF EXISTS  t1, t2;], with two spaces between TABLE and IF
    and two between EXISTS and the first name. *)
Theorem drop_table_if_exists_two_names :
  drop_table (Seq ["t1"; "t2"]) true false false
    = "DROP TABLE  IF EXISTS  t1, t2;".
Proof. reflexivity. Qed.

(** ** select *)

(** [select] writes its clauses one after the other, in grammar order. *)
Lemma select_clauses (cols : str_or_seq) (frm : string) (distinct : bool)
    (where_ : option string) (group_by : option str_or_seq)
    (having : option string) (order_by : option str_or_seq)
    (order_desc : bool) (limit offset fetch : option Z) :
  select cols frm distinct where_ group_by having order_by order_desc
         limit offset fetch
  = select_clause cols distinct ++ from_clause frm ++ where_clause where_
    ++ group_by_clause group_by ++ having_clause having
    ++ order_by_clause order_by order_desc
    ++ limit_clause limit ++ offset_clause offset ++ fetch_clause fetch ++ ";".
Proof.
  unfold select, select_clause, from_clause, group_by_clause, order_by_clause.
  fold (where_clause where_) (having_clause having) (limit_clause limit)
       (offset_clause offset) (fetch_clause fetch).
  destruct group_by as [g|], order_by as [o|], order_desc; cbn [negb];
    rewrite ?append_assoc, ?append_nil_r; cbn [append]; reflexivity.
Qed.

(** A clause whose argument is left out is the empty text; for ORDER BY
    this needs [order_desc] to be off as well. *)
Lemma omitted_clauses_empty :
  where_clause None = "" /\ group_by_clause None = "" /\
  having_clause None = "" /\ order_by_clause None false = "" /\
  limit_clause None = "" /\ offset_clause None = "" /\ fetch_clause None = "".
Proof. repeat split. Qed.

Lemma select_semicolon (cols : str_or_seq) (frm : string) (distinct : bool)
    (where_ : option string) (group_by : option str_or_seq)
    (having : option string) (order_by : option str_or_seq)
    (order_desc : bool) (limit offset fetch : option Z) :
  semicolon_terminated
    (select cols frm distinct where_ group_by having order_by order_desc
            limit offset fetch).
Proof. unfold select. apply semicolon_terminated_append. Qed.

(** C3. [select(["a"], "t", order_desc=True)], with no [order_by], returns
    [SELECT a / FROM t / ORDER BY DESC;]: the bare fragment is in the
    output. *)
Theorem select_order_desc_alone_emits_bare_order_by :
  select (Seq ["a"]) "t" false None None None None true None None None
    = "SELECT a" ++ LF ++ "FROM t" ++ LF ++ "ORDER BY DESC;" /\
  contains "ORDER BY DESC"
    (select (Seq ["a"]) "t" false None None None None true None None None)
    = true.
Proof. split; reflexivity. Qed.

(** C8. A plain string given as [cols], [group_by] or [order_by] is split
    into its characters, and the characters are written joined by [", "]:
    after SELECT for [cols], after GROUP BY for [group_by] and after
    ORDER BY for [order_by], each clause in its place in the statement.
    The call returns what it returns on the tuple of those characters;
    [select("ab", "t")] starts with [SELECT a, b], and with
    [group_by="cd"] and [order_by="ef"] the statement has the lines
    [GROUP BY c, d] and [ORDER BY e, f]. *)
Theorem select_plain_string_is_split (s frm : string) (distinct : bool)
    (where_ : option string) (having : option string) (order_desc : bool)
    (limit offset fetch : option Z) (cols : str_or_seq)
    (group_by order_by : option str_or_seq) :
  (* cols *)
  (select (Str s) frm distinct where_ group_by having order_by order_desc
          limit offset fetch
     = select (Seq (tuple_of_str s)) frm distinct where_ group_by having
              order_by order_desc limit offset fetch /\
   select (Str s) frm distinct where_ group_by having order_by order_desc
          limit offset fetch
     = ("SELECT " ++ (if distinct then "DISTINCT " else "")
                  ++ join ", " (tuple_of_str s))
       ++ from_clause frm ++ where_clause where_ ++ group_by_clause group_by
       ++ having_clause having ++ order_by_clause order_by order_desc
       ++ limit_clause limit ++ offset_clause offset ++ fetch_clause fetch
       ++ ";" /\
   startswith
     ("SELECT " ++ (if distinct then "DISTINCT " else "")
                ++ join ", " (tuple_of_str s))
     (select (Str s) frm distinct where_ group_by having order_by order_desc
             limit offset fetch) = true) /\
  (* group_by *)
  (select cols frm distinct where_ (Some (Str s)) having order_by order_desc
          limit offset fetch
     = select cols frm distinct where_ (Some (Seq (tuple_of_str s))) having
              order_by order_desc limit offset fetch /\
   select cols frm distinct where_ (Some (Str s)) having order_by order_desc
          limit offset fetch
     = select_clause cols distinct ++ from_clause frm ++ where_clause where_
       ++ (LF ++ "GROUP BY " ++ join ", " (tuple_of_str s))
       ++ having_clause having ++ order_by_clause order_by order_desc
       ++ limit_clause limit ++ offset_clause offset ++ fetch_clause fetch
       ++ ";" /\
   contains (LF ++ "GROUP BY " ++ join ", " (tuple_of_str s))
     (select cols frm distinct where_ (Some (Str s)) having order_by
             order_desc limit offset fetch) = true) /\
  (* order_by *)
  (select cols frm distinct where_ group_by having (Some (Str s)) order_desc
          limit offset fetch
     = select cols frm distinct where_ group_by having
              (Some (Seq (tuple_of_str s))) order_desc limit offset fetch /\
   select cols frm distinct where_ group_by having (Some (Str s)) order_desc
          limit offset fetch
     = select_clause cols distinct ++ from_clause frm ++ where_clause where_
       ++ group_by_clause group_by ++ having_clause having
       ++ (LF ++ "ORDER BY " ++ join ", " (tuple_of_str s)
              ++ (if order_desc then " DESC" else ""))
       ++ limit_clause limit ++ offset_clause offset ++ fetch_clause fetch
       ++ ";" /\
   contains (LF ++ "ORDER BY " ++ join ", " (tuple_of_str s))
     (select cols frm distinct where_ group_by having (Some (Str s))
             order_desc limit offset fetch) = true) /\
  (* the examples *)
  startswith "SELECT a, b"
    (select (Str "ab") "t" false None None None None false None None None)
    = true /\
  select (Str "ab") "t" false None (Some (Str "cd")) None (Some (Str "ef"))
         false None None None
    = "SELECT a, b" ++ LF ++ "FROM t" ++ LF ++ "GROUP BY c, d" ++ LF
      ++ "ORDER BY e, f;".
Proof.
  split; [|split; [|split; [|split; reflexivity]]].
  - split; [reflexivity|]. rewrite select_clauses.
    split; [reflexivity|]. apply startswith_append.
  - split; [reflexivity|]. rewrite select_clauses.
    split; [reflexivity|].
    do 3 apply contains_append. apply contains_here.
  - split; [reflexivity|]. rewrite select_clauses.
    split; [reflexivity|].
    do 5 apply contains_append.
    change (order_by_clause (Some (Str s)) order_desc)
      with (LF ++ "ORDER BY " ++ join ", " (tuple_of_str s)
               ++ (if order_desc then " DESC" else "")).
    replace (LF ++ "ORDER BY " ++ join ", " (tuple_of_str s)
                ++ (if order_desc then " DESC" else ""))
      with ((LF ++ "ORDER BY " ++ join ", " (tuple_of_str s))
            ++ (if order_desc then " DESC" else ""))
      by (now rewrite !append_assoc).
    apply contains_append_r, contains_here.
Qed.

(** C9. With [order_by] left out and [order_desc] set, the ORDER BY clause
    is not empty: [select] writes the fragment [ORDER BY DESC] between the
    HAVING and the LIMIT clause, for every choice of the other
    arguments. *)
Theorem select_omitted_order_by_still_written (cols : str_or_seq)
    (frm : string) (distinct : bool) (where_ : option string)
    (group_by : option str_or_seq) (having : option string)
    (limit offset fetch : option Z) :
  select cols frm distinct where_ group_by having None true limit offset fetch
    = select_clause cols distinct ++ from_clause frm ++ where_clause where_
      ++ group_by_clause group_by ++ having_clause having
      ++ (LF ++ "ORDER BY DESC")
      ++ limit_clause limit ++ offset_clause offset ++ fetch_clause fetch
      ++ ";" /\
  contains "ORDER BY DESC"
    (select cols frm distinct where_ group_by having None true
            limit offset fetch) = true.
Proof.
  rewrite select_clauses. cbn [order_by_clause]. split; [reflexivity|].
  do 5 apply contains_append.
  change (LF ++ "ORDER BY DESC") with (LF ++ "ORDER BY DESC" ++ "").
  rewrite !append_assoc. apply contains_append.
  change ("ORDER BY DESC" ++ "" ++ ?x) with ("ORDER BY DESC" ++ x).
  apply contains_here.
Qed.

(** ** Equal mappings, different orders *)












(** * Further properties of the builders *)

(** ** Text, continued *)

Lemma count_lf_append (a b : string) :
  count_lf (a ++ b) = count_lf a + count_lf b.
Proof.
  induction a as [|c a IH]; [reflexivity|].
  cbn [append count_lf]. rewrite IH. apply Nat.add_assoc.
Qed.

Lemma one_line_count (s : string) : one_line s = true -> count_lf s = 0.
Proof. unfold one_line. apply Nat.eqb_eq. Qed.

(** Names joined by [", "] stay on one line. *)
Lemma count_lf_join_comma (xs : list string) :
  forallb one_line xs = true -> count_lf (join ", " xs) = 0.
Proof.
  induction xs as [|a [|b rest] IH]; intros H; [reflexivity| |].
  - cbn [forallb] in H. apply andb_true_iff in H as [Ha _].
    exact (one_line_count a Ha).
  - change (join ", " (a :: b :: rest)) with (a ++ ", " ++ join ", " (b :: rest)).
    cbn [forallb] in H. apply andb_true_iff in H as [Ha Hrest].
    rewrite !count_lf_append, (one_line_count a Ha), (IH Hrest). reflexivity.
Qed.

Lemma count_lf_uint (d : Decimal.uint) :
  count_lf (NilEmpty.string_of_uint d) = 0.
Proof. induction d; cbn; assumption || reflexivity. Qed.

(** A formatted integer has no line break. *)
Lemma count_lf_str_of_int (n : Z) : count_lf (str_of_int n) = 0.
Proof.
  unfold str_of_int, NilZero.string_of_int, NilZero.string_of_uint.
  destruct (Z.to_int n) as [d|d].
  - destruct d; try reflexivity; cbn; apply count_lf_uint.
  - destruct d; try reflexivity; cbn; apply count_lf_uint.
Qed.

(** ** procedure_call, update, create_table: what reaches the statement *)

(** X1. [procedure_call] writes the argument values only: two mappings with
    the same values in the same order, whatever their parameter names, give
    the same call statement, [CALL name(v1, v2, ...);]. *)
Theorem procedure_call_ignores_names (G : Type) (write_val : value -> string)
    (proc_name : string) (d1 d2 : dict value) (w : world G) :
  values d1 = values d2 ->
  outcome (procedure_call write_val proc_name d1) w
    = outcome (procedure_call write_val proc_name d2) w /\
  outcome (procedure_call write_val proc_name d1) w
    = Ok ("CALL " ++ proc_name ++ "("
          ++ join ", " (map write_val (values d2)) ++ ");").
Proof.
  intros Hv.
  assert (E : forall d : dict value,
             outcome (procedure_call write_val proc_name d) w
             = Ok ("CALL " ++ proc_name ++ "("
                   ++ join ", " (map write_val (values d)) ++ ");")).
  { intros d. unfold outcome, procedure_call, bind, dunder_name, debug, ret,
      items, values. cbn [fst]. now rewrite map_map. }
  rewrite !E, Hv. split; reflexivity.
Qed.

Lemma procedure_call_ignores_names_witness :
  values [("a", VInt 1); ("b", VStr "x")]
    = values [("p", VInt 1); ("q", VStr "x")] /\
  outcome (procedure_call write_val_spec "f" [("a", VInt 1); ("b", VStr "x")])
          fresh_world
    = outcome (procedure_call write_val_spec "f" [("p", VInt 1); ("q", VStr "x")])
              fresh_world /\
  outcome (procedure_call write_val_spec "f" [("a", VInt 1); ("b", VStr "x")])
          fresh_world
    = Ok ("CALL " ++ "f" ++ "("
          ++ join ", " (map write_val_spec (values [("p", VInt 1); ("q", VStr "x")]))
          ++ ");").
Proof.
  split; [reflexivity|].
  apply (procedure_call_ignores_names unit write_val_spec "f"
           [("a", VInt 1); ("b", VStr "x")] [("p", VInt 1); ("q", VStr "x")]
           fresh_world).
  reflexivity.
Defined.

(** X2. Every assignment of the mapping given to [update] is in the
    statement it returns, written [column = literal], with or without a
    [where] condition. *)
Theorem update_contains_every_assignment (G : Type)
    (write_val : value -> string) (table_name : string) (nv : dict value)
    (where_ : option string) (w : world G) (k : string) (v : value) :
  In (k, v) nv ->
  exists s : string,
    outcome (update write_val table_name nv where_) w = Ok s /\
    contains (k ++ " = " ++ write_val v) s = true.
Proof.
  intros Hin. rewrite update_outcome. eexists. split; [reflexivity|].
  assert (Hj : contains (k ++ " = " ++ write_val v)
                 (join ("," ++ LF ++ "    ")
                    (map (fun kvp => fst kvp ++ " = " ++ write_val (snd kvp)) nv))
               = true).
  { apply contains_join.
    apply (in_map (fun kvp => fst kvp ++ " = " ++ write_val (snd kvp))) in Hin.
    exact Hin. }
  destruct where_ as [cond|].
  - apply contains_append_r, contains_append, Hj.
  - apply contains_append, Hj.
Qed.

Lemma update_contains_every_assignment_witness :
  In ("b", VStr "x") [("a", VInt 1); ("b", VStr "x")] /\
  exists s : string,
    outcome (update write_val_spec "t" [("a", VInt 1); ("b", VStr "x")] None)
            fresh_world = Ok s /\
    contains ("b" ++ " = " ++ write_val_spec (VStr "x")) s = true.
Proof.
  split; [right; left; reflexivity|].
  apply (update_contains_every_assignment unit write_val_spec "t"
           [("a", VInt 1); ("b", VStr "x")] None fresh_world "b" (VStr "x")).
  right; left; reflexivity.
Defined.

(** X3. Every column of the mapping given to [create_table] is in the
    statement it returns, written [name type]. *)
Theorem create_table_contains_every_column (G : Type) (table_name : string)
    (names_types : dict string) (w : world G) (k ty : string) :
  In (k, ty) names_types ->
  exists s : string,
    outcome (create_table table_name names_types) w = Ok s /\
    contains (k ++ " " ++ ty) s = true.
Proof.
  intros Hin. unfold outcome, create_table, bind, dunder_name, debug, ret, items.
  cbn [fst]. eexists. split; [reflexivity|].
  apply contains_append, contains_append_r, contains_join.
  apply (in_map (fun kvp => fst kvp ++ " " ++ snd kvp)) in Hin. exact Hin.
Qed.

Lemma create_table_contains_every_column_witness :
  In ("name", "text") [("id", "int"); ("name", "text")] /\
  exists s : string,
    outcome (create_table "t" [("id", "int"); ("name", "text")]) fresh_world
      = Ok s /\
    contains ("name" ++ " " ++ "text") s = true.
Proof.
  split; [right; left; reflexivity|].
  apply (create_table_contains_every_column unit "t"
           [("id", "int"); ("name", "text")] fresh_world "name" "text").
  right; left; reflexivity.
Defined.

(** ** Statement terminator *)

(** X4. Apart from [update] without a [where] condition, whatever a builder
    returns ends with a semicolon: [update] with a condition,
    [create_table] and [procedure_call] always return such a string,
    [insert] does whenever it returns, and so do [drop_table] and
    [select]. *)
Theorem builders_end_with_semicolon (G : Type) (write_val : value -> string)
    (w : world G) :
  (forall table_name nv,
     match outcome (insert write_val table_name nv) w with
     | Ok s => semicolon_terminated s
     | Raise _ => True
     end) /\
  (forall table_name nv cond, exists s,
     outcome (update write_val table_name nv (Some cond)) w = Ok s /\
     semicolon_terminated s) /\
  (forall table_name names_types, exists s,
     outcome (create_table table_name names_types) w = Ok s /\
     semicolon_terminated s) /\
  (forall proc_name param_args, exists s,
     outcome (procedure_call write_val proc_name param_args) w = Ok s /\
     semicolon_terminated s) /\
  (forall table_names if_exists cascade restrict,
     semicolon_terminated (drop_table table_names if_exists cascade restrict)) /\
  (forall cols frm distinct where_ group_by having order_by order_desc
          limit offset fetch,
     semicolon_terminated
       (select cols frm distinct where_ group_by having order_by order_desc
               limit offset fetch)).
Proof.
  split.
  { intros table_name nv.
    destruct (outcome (insert write_val table_name nv) w) as [s|e] eqn:E;
      [|exact I].
    exact (insert_semicolon G write_val table_name nv w s E). }
  split.
  { intros table_name nv cond. eexists. split; [apply update_outcome|].
    ends_in_semicolon. }
  split.
  { intros table_name names_types. eexists. split; [reflexivity|].
    apply (create_table_semicolon G table_name names_types w). reflexivity. }
  split.
  { intros proc_name param_args. eexists. split; [reflexivity|].
    apply (procedure_call_semicolon G write_val proc_name param_args w).
    reflexivity. }
  split.
  - intros. apply drop_table_semicolon.
  - intros. apply select_semicolon.
Qed.

(** ** One line per item *)

(** Items without a line break, joined by a separator: the separator's
    line breaks, once between each two items. *)
Lemma count_lf_join (sep : string) (xs : list string) :
  forallb one_line xs = true ->
  count_lf (join sep xs) = pred (List.length xs) * count_lf sep.
Proof.
  induction xs as [|a [|b rest] IH]; intros H; [reflexivity| |].
  - cbn [forallb] in H. apply andb_true_iff in H as [Ha _].
    cbn [join List.length pred Nat.mul]. exact (one_line_count a Ha).
  - change (join sep (a :: b :: rest)) with (a ++ sep ++ join sep (b :: rest)).
    cbn [forallb] in H. apply andb_true_iff in H as [Ha Hrest].
    rewrite !count_lf_append, (one_line_count a Ha), (IH Hrest).
    cbn [List.length pred]. lia.
Qed.

(** X5. [create_table] writes one column definition per line: when the
    table name, the column names and the types have no line break, the
    statement has as many line breaks as the mapping has columns (and one
    for an empty mapping). *)
Theorem create_table_line_per_column (G : Type) (table_name : string)
    (names_types : dict string) (w : world G) :
  one_line table_name = true ->
  forallb (fun kvp => one_line (fst kvp) && one_line (snd kvp)) names_types
    = true ->
  exists s : string,
    outcome (create_table table_name names_types) w = Ok s /\
    count_lf s = Nat.max 1 (List.length names_types).
Proof.
  intros Ht Hall. unfold outcome, create_table, bind, dunder_name, debug, ret,
    items. cbn [fst]. eexists. split; [reflexivity|].
  rewrite !count_lf_append, (one_line_count _ Ht), count_lf_join.
  - rewrite length_map. destruct (List.length names_types); cbn; lia.
  - rewrite forallb_forall in *. intros x Hx.
    apply in_map_iff in Hx as [[k ty] [<- Hin]]. specialize (Hall _ Hin).
    cbn [fst snd] in *. apply andb_true_iff in Hall as [Hk Hty].
    unfold one_line. rewrite !count_lf_append.
    rewrite (one_line_count _ Hk), (one_line_count _ Hty). reflexivity.
Qed.

Lemma create_table_line_per_column_witness :
  one_line "t" = true /\
  forallb (fun kvp => one_line (fst kvp) && one_line (snd kvp))
          [("id", "int"); ("name", "text"); ("age", "int")] = true /\
  exists s : string,
    outcome (create_table "t" [("id", "int"); ("name", "text"); ("age", "int")])
            fresh_world = Ok s /\
    count_lf s
      = Nat.max 1 (List.length [("id", "int"); ("name", "text"); ("age", "int")]).
Proof.
  split; [reflexivity|]. split; [reflexivity|].
  apply (create_table_line_per_column unit "t"
           [("id", "int"); ("name", "text"); ("age", "int")] fresh_world);
    reflexivity.
Defined.

(** X6. [update] writes one assignment per line after the UPDATE line, and
    the WHERE clause, when there is one, on a line of its own: with no line
    break in the table name, the column names, the formatted values and
    the condition, the statement has one line break, one more per
    assignment after the first, and one more for the condition. *)
Theorem update_line_per_assignment (G : Type) (write_val : value -> string)
    (table_name : string) (nv : dict value) (where_ : option string)
    (w : world G) :
  one_line table_name = true ->
  forallb (fun kvp => one_line (fst kvp) && one_line (write_val (snd kvp))) nv
    = true ->
  when_given one_line where_ = true ->
  exists s : string,
    outcome (update write_val table_name nv where_) w = Ok s /\
    count_lf s = 1 + pred (List.length nv) + given where_.
Proof.
  intros Ht Hall Hw. rewrite update_outcome. eexists. split; [reflexivity|].
  assert (Hj : count_lf (join ("," ++ LF ++ "    ")
                 (map (fun kvp => fst kvp ++ " = " ++ write_val (snd kvp)) nv))
               = pred (List.length nv)).
  { rewrite count_lf_join.
    - rewrite length_map. cbn. lia.
    - rewrite forallb_forall in *. intros x Hx.
      apply in_map_iff in Hx as [[k v] [<- Hin]]. specialize (Hall _ Hin).
      cbn [fst snd] in *. apply andb_true_iff in Hall as [Hk Hv].
      unfold one_line. rewrite !count_lf_append.
      rewrite (one_line_count _ Hk), (one_line_count _ Hv). reflexivity. }
  destruct where_ as [cond|]; cbn [when_given given] in *.
  - rewrite !count_lf_append, Hj, (one_line_count _ Ht), (one_line_count _ Hw).
    cbn. lia.
  - rewrite !count_lf_append, Hj, (one_line_count _ Ht). cbn. lia.
Qed.

Lemma update_line_per_assignment_witness :
  one_line "t" = true /\
  forallb (fun kvp => one_line (fst kvp) && one_line (write_val_spec (snd kvp)))
          [("a", VInt 1); ("b", VStr "x")] = true /\
  when_given one_line (Some "id=5") = true /\
  exists s : string,
    outcome (update write_val_spec "t" [("a", VInt 1); ("b", VStr "x")]
                    (Some "id=5")) fresh_world = Ok s /\
    count_lf s
      = 1 + pred (List.length [("a", VInt 1); ("b", VStr "x")])
          + given (Some "id=5").
Proof.
  split; [reflexivity|]. split; [reflexivity|]. split; [reflexivity|].
  apply (update_line_per_assignment unit write_val_spec "t"
           [("a", VInt 1); ("b", VStr "x")] (Some "id=5") fresh_world);
    reflexivity.
Defined.

(** ** insert: failures and the logging call *)

Lemma run_bind_lift {G A B} (r : result A) (k : A -> M G B) (w : world G) :
  bind (lift r) k w
  = match r with
    | Ok a => k a w
    | Raise e => (Raise e, w)
    end.
Proof. destruct r; reflexivity. Qed.

(** X7. [insert] on an empty list raises [IndexError], and on an argument
    that is neither a list nor a dict [UnboundLocalError].  Whenever
    [insert] raises, the logging call has not been reached and the world is
    as before the call; when it returns, it has made one call of
    [logging.debug], with a heading followed by the statement returned. *)
Theorem insert_failure_modes (G : Type) (write_val : value -> string)
    (table_name : string) (w : world G) :
  outcome (insert write_val table_name (NVList [])) w = Raise IndexError /\
  outcome (insert write_val table_name NVOther) w = Raise UnboundLocalError /\
  forall nv,
    match outcome (insert write_val table_name nv) w with
    | Ok s =>
        after (insert write_val table_name nv) w
        = after (debug RootLogger
                   ("Created " ++ module_name w ++ " insertion:" ++ LF ++ s)) w
    | Raise _ => after (insert write_val table_name nv) w = w
    end.
Proof.
  split; [reflexivity|]. split; [reflexivity|].
  intros nv. unfold outcome, after, insert. rewrite run_bind_lift.
  match goal with |- context [match ?r with Ok _ => _ | Raise _ => _ end] =>
    destruct r as [[names values_str]|e] end; reflexivity.
Qed.

(** ** drop_table: flags and names *)

(** X9. With exactly one of the two flags set, [drop_table] ends its
    statement with that keyword: [ CASCADE;] for [cascade] alone,
    [ RESTRICT;] for [restrict] alone. *)
Theorem drop_table_single_flag (table_names : str_or_seq) (if_exists : bool) :
  endswith " CASCADE;" (drop_table table_names if_exists true false) = true /\
  endswith " RESTRICT;" (drop_table table_names if_exists false true) = true.
Proof.
  unfold drop_table. cbn [andb negb]. split.
  - rewrite append_nil_r, append_assoc. apply endswith_append.
  - rewrite append_nil_r, append_assoc. apply endswith_append.
Qed.

Lemma length_join_tuple (c : ascii) (s : string) :
  String.length (join ", " (tuple_of_str (String c s)))
  = 1 + 3 * String.length s.
Proof.
  revert c. induction s as [|d s IH]; intros c; [reflexivity|].
  change (tuple_of_str (String c (String d s)))
    with (String c "" :: tuple_of_str (String d s)).
  change (join ", " (String c "" :: tuple_of_str (String d s)))
    with (String c "" ++ ", " ++ join ", " (tuple_of_str (String d s))).
  rewrite !length_append, IH. cbn [String.length]. lia.
Qed.

(** X10. [drop_table] keeps a plain string whole: a single name gives the
    statement its one-element list gives, and, for a name of two characters
    or more, not the statement the tuple of its characters gives (the
    splitting [select] applies to its own string arguments). *)
Theorem drop_table_keeps_plain_string_whole (s : string)
    (if_exists cascade restrict : bool) :
  2 <= String.length s ->
  drop_table (Str s) if_exists cascade restrict
    = drop_table (Seq [s]) if_exists cascade restrict /\
  drop_table (Str s) if_exists cascade restrict
    <> drop_table (Seq (tuple_of_str s)) if_exists cascade restrict.
Proof.
  intros Hlen. split; [reflexivity|]. intros E.
  apply (f_equal String.length) in E. unfold drop_table in E.
  rewrite !length_append in E.
  destruct s as [|c s]; [cbn in Hlen; lia|].
  rewrite length_join_tuple in E. cbn [String.length] in Hlen, E. lia.
Qed.

Lemma drop_table_keeps_plain_string_whole_witness :
  2 <= String.length "ab" /\
  drop_table (Str "ab") false false false
    = drop_table (Seq ["ab"]) false false false /\
  drop_table (Str "ab") false false false
    <> drop_table (Seq (tuple_of_str "ab")) false false false.
Proof.
  split; [cbn; lia|].
  apply (drop_table_keeps_plain_string_whole "ab" false false false).
  cbn; lia.
Defined.

(** ** Empty inputs *)

(** X11. No builder other than [insert] checks for an empty input: an
    empty mapping or an empty sequence of names is accepted, and the
    statement is written with nothing where the list should be. *)
Theorem empty_inputs_not_rejected (G : Type) (write_val : value -> string)
    (w : world G) (name : string) (cond : string) :
  outcome (update write_val name [] (Some cond)) w
    = Ok ("UPDATE " ++ name ++ LF ++ "SET " ++ LF ++ "WHERE " ++ cond ++ ";") /\
  outcome (create_table name []) w
    = Ok ("CREATE TABLE " ++ name ++ " (" ++ LF ++ ");") /\
  outcome (procedure_call write_val name []) w
    = Ok ("CALL " ++ name ++ "();") /\
  drop_table (Seq []) false false false = "DROP TABLE ;" /\
  select (Seq []) name false None None None None false None None None
    = "SELECT " ++ LF ++ "FROM " ++ name ++ ";".
Proof.
  split.
  { rewrite update_outcome. cbn [map join]. apply f_equal.
    rewrite append_nil_r, !append_assoc. reflexivity. }
  split.
  { unfold outcome, create_table, bind, dunder_name, debug, ret, items.
    cbn [fst map join]. apply f_equal. rewrite !append_assoc. reflexivity. }
  split.
  { unfold outcome, procedure_call, bind, dunder_name, debug, ret, items.
    cbn [fst map join]. reflexivity. }
  split; [reflexivity|].
  rewrite select_clauses. cbn. reflexivity.
Qed.

(** ** select: what is written, and on how many lines *)

(** Finds a clause among the fragments of a statement. *)
Ltac clause_here :=
  first [ apply contains_here | apply contains_append; clause_here ].

(** X12. [select] writes the FROM clause always, and every optional clause
    whose argument is given, whatever the argument is: an empty condition
    still gives a WHERE or HAVING line, and a limit, offset or fetch of 0
    is written like any other number (absence is tested with [is None],
    not by truth value). *)
Theorem select_writes_given_clauses (cols : str_or_seq) (frm : string)
    (distinct : bool) (where_ : option string) (group_by : option str_or_seq)
    (having : option string) (order_by : option str_or_seq)
    (order_desc : bool) (limit offset fetch : option Z)
    (c : string) (g : str_or_seq) (n : Z) :
  contains (LF ++ "FROM " ++ frm)
    (select cols frm distinct where_ group_by having order_by order_desc
            limit offset fetch) = true /\
  contains (LF ++ "WHERE " ++ c)
    (select cols frm distinct (Some c) group_by having order_by order_desc
            limit offset fetch) = true /\
  contains (LF ++ "GROUP BY " ++ join ", " (as_tuple g))
    (select cols frm distinct where_ (Some g) having order_by order_desc
            limit offset fetch) = true /\
  contains (LF ++ "HAVING " ++ c)
    (select cols frm distinct where_ group_by (Some c) order_by order_desc
            limit offset fetch) = true /\
  contains (LF ++ "ORDER BY " ++ join ", " (as_tuple g)
               ++ (if order_desc then " DESC" else ""))
    (select cols frm distinct where_ group_by having (Some g) order_desc
            limit offset fetch) = true /\
  contains (LF ++ "LIMIT " ++ str_of_int n)
    (select cols frm distinct where_ group_by having order_by order_desc
            (Some n) offset fetch) = true /\
  contains (LF ++ "OFFSET " ++ str_of_int n ++ " ROWS")
    (select cols frm distinct where_ group_by having order_by order_desc
            limit (Some n) fetch) = true /\
  contains (LF ++ "FETCH FIRST " ++ str_of_int n ++ " ROWS ONLY")
    (select cols frm distinct where_ group_by having order_by order_desc
            limit offset (Some n)) = true.
Proof.
  rewrite !select_clauses. repeat split; clause_here.
Qed.

(** X13. Every name given as [cols] is in the statement [select] returns. *)
Theorem select_lists_every_column (cols : str_or_seq) (frm : string)
    (distinct : bool) (where_ : option string) (group_by : option str_or_seq)
    (having : option string) (order_by : option str_or_seq)
    (order_desc : bool) (limit offset fetch : option Z) (col : string) :
  In col (as_tuple cols) ->
  contains col
    (select cols frm distinct where_ group_by having order_by order_desc
            limit offset fetch) = true.
Proof.
  intros Hin. rewrite select_clauses. unfold select_clause.
  apply contains_append_r. do 2 apply contains_append.
  apply contains_join, Hin.
Qed.

Lemma select_lists_every_column_witness :
  In "age" (as_tuple (Seq ["name"; "age"])) /\
  contains "age"
    (select (Seq ["name"; "age"]) "table_name" false None None None None true
            None None None) = true.
Proof.
  split; [right; left; reflexivity|].
  apply (select_lists_every_column (Seq ["name"; "age"]) "table_name" false
           None None None None true None None None "age").
  right; left; reflexivity.
Defined.

Lemma count_lf_where (where_ : option string) :
  when_given one_line where_ = true -> count_lf (where_clause where_) = given where_.
Proof.
  destruct where_ as [c|]; [|reflexivity]. cbn [when_given]. intros H.
  unfold where_clause. rewrite !count_lf_append, (one_line_count _ H). reflexivity.
Qed.

Lemma count_lf_having (having : option string) :
  when_given one_line having = true ->
  count_lf (having_clause having) = given having.
Proof.
  destruct having as [c|]; [|reflexivity]. cbn [when_given]. intros H.
  unfold having_clause. rewrite !count_lf_append, (one_line_count _ H). reflexivity.
Qed.

Lemma count_lf_group_by (group_by : option str_or_seq) :
  when_given one_line_each group_by = true ->
  count_lf (group_by_clause group_by) = given group_by.
Proof.
  destruct group_by as [g|]; [|reflexivity]. cbn [when_given]. intros H.
  unfold group_by_clause.
  rewrite !count_lf_append, (count_lf_join_comma _ H). reflexivity.
Qed.

Lemma count_lf_order_by (order_by : option str_or_seq) (order_desc : bool) :
  when_given one_line_each order_by = true ->
  count_lf (order_by_clause order_by order_desc)
  = if order_desc then 1 else given order_by.
Proof.
  destruct order_by as [o|]; cbn [when_given]; intros H.
  - unfold order_by_clause.
    rewrite !count_lf_append, (count_lf_join_comma _ H).
    destruct order_desc; reflexivity.
  - destruct order_desc; reflexivity.
Qed.

Lemma count_lf_limit_offset_fetch (limit offset fetch : option Z) :
  count_lf (limit_clause limit) = given limit /\
  count_lf (offset_clause offset) = given offset /\
  count_lf (fetch_clause fetch) = given fetch.
Proof.
  repeat split.
  - destruct limit as [n|]; [|reflexivity]. unfold limit_clause.
    rewrite !count_lf_append, count_lf_str_of_int. reflexivity.
  - destruct offset as [n|]; [|reflexivity]. unfold offset_clause.
    rewrite !count_lf_append, count_lf_str_of_int. reflexivity.
  - destruct fetch as [n|]; [|reflexivity]. unfold fetch_clause.
    rewrite !count_lf_append, count_lf_str_of_int. reflexivity.
Qed.

(** X14. [select] writes one clause per line.  When no name and no
    condition it is given has a line break, the statement has one line
    break for FROM and one for each optional clause that is given, and
    none for a clause left out; the ORDER BY line is also written when
    [order_desc] is set without an [order_by]. *)
Theorem select_line_per_clause (cols : str_or_seq) (frm : string)
    (distinct : bool) (where_ : option string) (group_by : option str_or_seq)
    (having : option string) (order_by : option str_or_seq)
    (order_desc : bool) (limit offset fetch : option Z) :
  one_line_each cols = true ->
  one_line frm = true ->
  when_given one_line where_ = true ->
  when_given one_line_each group_by = true ->
  when_given one_line having = true ->
  when_given one_line_each order_by = true ->
  count_lf (select cols frm distinct where_ group_by having order_by
                   order_desc limit offset fetch)
  = 1 + given where_ + given group_by + given having
      + (if order_desc then 1 else given order_by)
      + given limit + given offset + given fetch.
Proof.
  intros Hc Hf Hw Hg Hh Ho.
  destruct (count_lf_limit_offset_fetch limit offset fetch) as [Hl [Hoff Hfe]].
  rewrite select_clauses, !count_lf_append.
  rewrite (count_lf_where _ Hw), (count_lf_group_by _ Hg),
    (count_lf_having _ Hh), (count_lf_order_by _ order_desc Ho), Hl, Hoff, Hfe.
  unfold select_clause, from_clause. rewrite !count_lf_append.
  rewrite (count_lf_join_comma _ Hc), (one_line_count _ Hf).
  destruct distinct; cbn; lia.
Qed.

Lemma select_line_per_clause_witness :
  one_line_each (Seq ["name"; "age"]) = true /\
  one_line "people" = true /\
  when_given one_line (Some "age > 18") = true /\
  when_given one_line_each (@None str_or_seq) = true /\
  when_given one_line (@None string) = true /\
  when_given one_line_each (Some (Str "ab")) = true /\
  count_lf (select (Seq ["name"; "age"]) "people" true (Some "age > 18") None
                   None (Some (Str "ab")) true (Some 10%Z) None None)
  = 1 + given (Some "age > 18") + given (@None str_or_seq) + given (@None string)
      + (if true then 1 else given (Some (Str "ab")))
      + given (Some 10%Z) + given (@None Z) + given (@None Z).
Proof.
  do 6 (split; [reflexivity|]).
  apply (select_line_per_clause (Seq ["name"; "age"]) "people" true
           (Some "age > 18") None None (Some (Str "ab")) true (Some 10%Z)
           None None); reflexivity.
Defined.
